(** * MEU Logistics Assistant: a shallow embedding of [app.py]

    [app.py] reads a data file once, formats it into the module global
    [SYSTEM_PROMPT], and exposes one function, [chat(message, history)],
    which builds a role-tagged message list, sends it to a chat-completion
    provider and returns the text of the first choice.

    Python lists are mutable objects reached through references, so the
    embedding keeps them in an explicit heap; [chat] is a computation in a
    small state-and-exception monad over that heap and the module globals.
    The provider is a parameter of [chat]. The [for] loop iterates over the
    live list, as Python's list iterator does, and therefore runs on fuel;
    the theorems say how much fuel is enough. *)

From stdpp Require Import gmap strings list relations.

Local Open Scope string_scope.
Local Open Scope list_scope.

(** ** Data *)

(** References to list objects. *)
Abbreviation loc := positive (only parsing).

(** The dict literal [{"role": r, "content": c}]. Its two keys are fixed by
    the source, so the dict is a record of the two values. *)
Record Message := { role : string; content : string }.

(** What a list of this program holds: a turn [(user_msg, assistant_msg)]
    supplied by the chat surface, or a message dict built by [chat]. Turns
    and dicts are only ever read, so lists hold them by value. *)
Inductive item :=
| Turn (t : string * string)
| Dict (m : Message).

(** The provider's response, as far as [chat] reads it:
    [response.choices[0].message.content]. The content of a choice is
    optional in the provider's schema. *)
Module openai.
Record ChatCompletionMessage := { content : option string }.
Record Choice := { message : ChatCompletionMessage }.
Record ChatCompletion := { choices : list Choice }.
End openai.

Inductive exception :=
| OSError                      (* open() on a file that cannot be read *)
| IndexError                   (* choices[0] on an empty list *)
| APIError (detail : string).  (* whatever the provider call raises *)

(** The module globals and the heap of list objects. *)
Record state := State {
  DATA : string;
  SYSTEM_PROMPT : string;
  heap : gmap loc (list item)
}.

Definition with_heap (st : state) (h : gmap loc (list item)) : state :=
  {| DATA := DATA st; SYSTEM_PROMPT := SYSTEM_PROMPT st; heap := h |}.

(** ** The monad

    A computation ends by returning, by raising, by exhausting the fuel of
    a loop, or by following a reference that no list lives at ([Stuck];
    Python never gets there). The state after a raise is kept: what was
    written before the exception stays written. *)
Inductive outcome (A : Type) :=
| Return (a : A)
| Raise (e : exception)
| OutOfFuel
| Stuck.
Arguments Return {A} a.
Arguments Raise {A} e.
Arguments OutOfFuel {A}.
Arguments Stuck {A}.

Definition M (A : Type) : Type := state → outcome A * state.

Definition ret {A} (a : A) : M A := λ st, (Return a, st).

Definition bind {A B} (c : M A) (k : A → M B) : M B :=
  λ st, match c st with
        | (Return a, st') => k a st'
        | (Raise e, st') => (Raise e, st')
        | (OutOfFuel, st') => (OutOfFuel, st')
        | (Stuck, st') => (Stuck, st')
        end.

Notation "'do' x <- c ; k" := (bind c (λ x, k))
  (at level 10, x name, c at level 100, k at level 200,
   format "'[v' 'do'  x  <-  c ; '/' k ']'").

Definition raise {A} (e : exception) : M A := λ st, (Raise e, st).

(** Reading the global [SYSTEM_PROMPT]. *)
Definition get_SYSTEM_PROMPT : M string := λ st, (Return (SYSTEM_PROMPT st), st).

(** A list display [[x, ...]]: a new list object at an unused reference. *)
Definition new_list (xs : list item) : M loc :=
  λ st, let l := fresh (dom (heap st)) in
        (Return l, with_heap st (<[l := xs]> (heap st))).

(** The current elements of the list at [l]. *)
Definition read_list (l : loc) : M (list item) :=
  λ st, match heap st !! l with
        | Some xs => (Return xs, st)
        | None => (Stuck, st)
        end.

(** [l.append(x)]: in place. *)
Definition append (l : loc) (x : item) : M unit :=
  λ st, match heap st !! l with
        | Some xs => (Return tt, with_heap st (<[l := xs ++ [x]]> (heap st)))
        | None => (Stuck, st)
        end.

(** [for x in l: body(x)]. A list iterator keeps an index into the live
    list and compares it with the list's length at every step, so a body
    that grew [l] would be seen by the loop; [fuel] bounds the number of
    steps, the one that finds the end included. *)
Fixpoint for_in (fuel : nat) (l : loc) (i : nat) (body : item → M unit) : M unit :=
  match fuel with
  | O => λ st, (OutOfFuel, st)
  | S fuel' =>
      do xs <- read_list l;
      match xs !! i with
      | None => ret tt
      | Some x => do _ <- body x; for_in fuel' l (S i) body
      end
  end.

(** [user_msg, assistant_msg = x]: a turn gives its two texts; a dict is
    iterated by key, and a message dict has exactly the keys [role] and
    [content], in that order. *)
Definition unpack2 (x : item) : string * string :=
  match x with
  | Turn (user_msg, assistant_msg) => (user_msg, assistant_msg)
  | Dict _ => ("role", "content")
  end.

(** [xs[0]] *)
Definition index0 {A} (xs : list A) : M A :=
  match xs with
  | x :: _ => ret x
  | [] => raise IndexError
  end.

(** ** Startup: lines 10-20 *)

Definition NL : string := String (Ascii.ascii_of_nat 10) EmptyString.

(** The f-string assigned to [SYSTEM_PROMPT], as a function of [DATA]. *)
Definition SYSTEM_PROMPT_of (DATA : string) : string :=
  "You are a logistics analyst for Marine Expeditionary Unit (MEU) operations." +:+ NL +:+
  NL +:+
  "Use the data below to answer questions. Always reference specific numbers with units." +:+ NL +:+
  NL +:+
  "--- MEU LOGISTICS DATA ---" +:+ NL +:+
  DATA +:+ NL +:+
  "--- END DATA ---" +:+ NL.

(** The module body from [open] to the assignment of [SYSTEM_PROMPT]:
    [fs] is the file system, giving the text of a readable file. *)
Definition startup (fs : string → option string) : outcome state :=
  match fs "meu_logistics_data.csv" with
  | None => Raise OSError
  | Some text =>
      Return {| DATA := text; SYSTEM_PROMPT := SYSTEM_PROMPT_of text; heap := ∅ |}
  end.

(** ** [chat]: lines 22-33 *)

(** Lines 23-27: the message list. [fuel] is for the loop. *)
Definition chat_messages (fuel : nat) (message : string) (history : loc) : M loc :=
  do system_prompt <- get_SYSTEM_PROMPT;
  do messages <- new_list [Dict {| role := "system"; content := system_prompt |}];
  do _ <- for_in fuel history 0 (λ x,
            let '(user_msg, assistant_msg) := unpack2 x in
            do _ <- append messages (Dict {| role := "user"; content := user_msg |});
            append messages (Dict {| role := "assistant"; content := assistant_msg |}));
  do _ <- append messages (Dict {| role := "user"; content := message |});
  ret messages.

Section Chat.

(** [client.chat.completions.create]: the provider, given the model
    identifier and the elements of the list it is handed; it answers with
    a response or raises. *)
Variable create : string → list item → exception + openai.ChatCompletion.

(** Lines 29-32. *)
Definition call_create (model : string) (messages : loc) : M openai.ChatCompletion :=
  do sent <- read_list messages;
  match create model sent with
  | inl e => raise e
  | inr response => ret response
  end.

Definition chat (fuel : nat) (message : string) (history : loc) : M (option string) :=
  do messages <- chat_messages fuel message history;
  do response <- call_create "gpt-4o" messages;
  do choice <- index0 (openai.choices response);
  ret (openai.content (openai.message choice)).

End Chat.

(** ** Observations and specification-side definitions *)

(** The elements of the message list when [chat] reaches the provider
    call, if it gets that far. *)
Definition built_messages (fuel : nat) (message : string) (history : loc)
    (st : state) : option (list item) :=
  match chat_messages fuel message history st with
  | (Return messages, st') => heap st' !! messages
  | _ => None
  end.

(** What one pass of the loop body appends for the element [x]. *)
Definition turn_messages (x : item) : list item :=
  let '(user_msg, assistant_msg) := unpack2 x in
  [Dict {| role := "user"; content := user_msg |};
   Dict {| role := "assistant"; content := assistant_msg |}].

(** The sequence of section 3 of the specification, for a history of
    turns: the system message, two messages per turn, the new message. *)
Definition transcript (system_prompt : string) (ts : list (string * string))
    (message : string) : list Message :=
  {| role := "system"; content := system_prompt |}
  :: (ts ≫= λ '(user_msg, assistant_msg),
        [{| role := "user"; content := user_msg |};
         {| role := "assistant"; content := assistant_msg |}])
  ++ [{| role := "user"; content := message |}].

(** The text of the f-string before and after the [{DATA}] field. *)
Definition prompt_before : string :=
  "You are a logistics analyst for Marine Expeditionary Unit (MEU) operations." +:+ NL +:+
  NL +:+
  "Use the data below to answer questions. Always reference specific numbers with units." +:+ NL +:+
  NL +:+
  "--- MEU LOGISTICS DATA ---" +:+ NL.

Definition prompt_after : string := NL +:+ "--- END DATA ---" +:+ NL.

(** Reading the dataset back out of a prompt: what stands between the
    text before the field and the text after it. *)
Definition dataset_of (prompt : string) : string :=
  String.substring (String.length prompt_before)
    (String.length prompt - String.length prompt_before - String.length prompt_after)
    prompt.

(** What lines 29-33 make of the provider's answer. *)
Definition first_choice (answer : exception + openai.ChatCompletion)
  : outcome (option string) :=
  match answer with
  | inl e => Raise e
  | inr response =>
      match openai.choices response with
      | choice :: _ => Return (openai.content (openai.message choice))
      | [] => Raise IndexError
      end
  end.

(** [st] has the globals of [st0] and every list of [st0], unchanged. *)
Definition extends (st0 st : state) : Prop :=
  DATA st = DATA st0 ∧ SYSTEM_PROMPT st = SYSTEM_PROMPT st0 ∧ heap st0 ⊆ heap st.

(** [c] keeps that relation to [st0], however it ends. *)
Definition keeps (st0 : state) {A} (c : M A) : Prop :=
  ∀ st, extends st0 st → extends st0 (c st).2.

(** After startup the state moves by calls of [chat] and by the chat
    surface, which owns the histories and may create or change any list;
    the module defines nothing else that runs. *)
Inductive step (create : string → list item → exception + openai.ChatCompletion)
  : state → state → Prop :=
| step_chat fuel message history st :
    step create st (chat create fuel message history st).2
| step_surface st h :
    step create st (with_heap st h).

(** ** Stubs and sample states *)

(** A provider that answers every request with one choice of fixed
    content, one that answers with no choice at all, and one that fails. *)
Definition stub (S : option string)
  : string → list item → exception + openai.ChatCompletion :=
  λ _ _, inr {| openai.choices :=
                  [{| openai.message := {| openai.content := S |} |}] |}.

Definition stub_no_choice
  : string → list item → exception + openai.ChatCompletion :=
  λ _ _, inr {| openai.choices := [] |}.

Definition stub_failing (detail : string)
  : string → list item → exception + openai.ChatCompletion :=
  λ _ _, inl (APIError detail).

(** The end-to-end scenario of the specification: the data file holds
    [Fuel: 500 gal/day]. *)
Definition fs_demo (path : string) : option string :=
  if decide (path = "meu_logistics_data.csv") then Some "Fuel: 500 gal/day" else None.

(** The state right after startup on [fs_demo]. *)
Definition st_start : state :=
  {| DATA := "Fuel: 500 gal/day";
     SYSTEM_PROMPT := SYSTEM_PROMPT_of "Fuel: 500 gal/day";
     heap := ∅ |}.

(** The chat surface has made an empty history at reference 1. *)
Definition st_fresh : state :=
  {| DATA := "Fuel: 500 gal/day";
     SYSTEM_PROMPT := SYSTEM_PROMPT_of "Fuel: 500 gal/day";
     heap := {[ 1%positive := [] ]} |}.

(** A history of two turns, the second with an empty user text. *)
Definition st_demo : state :=
  {| DATA := "Fuel: 500 gal/day";
     SYSTEM_PROMPT := SYSTEM_PROMPT_of "Fuel: 500 gal/day";
     heap := {[ 1%positive := [Turn ("u1", "a1"); Turn ("", "a2")] ]} |}.

(** The same turns at another reference, next to another list, under
    another [DATA]. *)
Definition st_other : state :=
  {| DATA := "something else";
     SYSTEM_PROMPT := SYSTEM_PROMPT_of "Fuel: 500 gal/day";
     heap := {[ 4%positive := [Turn ("u1", "a1"); Turn ("", "a2")];
                5%positive := [Turn ("x", "y")] ]} |}.

(** Empty globals, empty history. *)
Definition st_blank : state :=
  {| DATA := ""; SYSTEM_PROMPT := ""; heap := {[ 7%positive := [] ]} |}.

(** * Proofs *)

(** ** States *)

Lemma with_heap_id st : with_heap st (heap st) = st.
Proof. by destruct st. Qed.

Lemma fresh_unused (h : gmap loc (list item)) : h !! fresh (dom h) = None.
Proof. apply not_elem_of_dom, is_fresh. Qed.

(** ** The loop *)

Section Loop.

Variables history messages : loc.
Hypothesis apart : messages ≠ history.

(** Run from index [i] on a history that the body does not touch, the loop
    appends the messages of the remaining elements to [messages]. *)
Lemma for_in_appends fuel hs i acc st :
  heap st !! history = Some hs →
  heap st !! messages = Some acc →
  length hs - i < fuel →
  for_in fuel history i (λ x,
      let '(user_msg, assistant_msg) := unpack2 x in
      do _ <- append messages (Dict {| role := "user"; content := user_msg |});
      append messages (Dict {| role := "assistant"; content := assistant_msg |})) st
  = (Return tt,
     with_heap st (<[messages := acc ++ (drop i hs ≫= turn_messages)]> (heap st))).
Proof.
  revert i acc st.
  induction fuel as [|fuel IH]; intros i acc st Hh Hm Hfuel; [lia|].
  cbn [for_in]. unfold bind at 1, read_list. rewrite Hh.
  destruct (hs !! i) as [x|] eqn:Hx.
  - (* one more element: the body appends twice, the loop goes on *)
    rewrite (drop_S _ _ _ Hx), bind_cons.
    unfold turn_messages. destruct (unpack2 x) as [u a].
    unfold bind, append. rewrite Hm. cbn [heap with_heap].
    rewrite lookup_insert_eq.
    apply lookup_lt_Some in Hx.
    rewrite (IH (S i) ((acc ++ [Dict {| role := "user"; content := u |}])
                         ++ [Dict {| role := "assistant"; content := a |}])).
    + unfold with_heap; cbn [DATA SYSTEM_PROMPT heap].
      rewrite !insert_insert_eq, <- !app_assoc. done.
    + cbn [heap with_heap]. by rewrite !lookup_insert_ne.
    + cbn [heap with_heap]. apply lookup_insert_eq.
    + lia.
  - (* past the end *)
    apply lookup_ge_None in Hx. rewrite drop_ge by done.
    change ([] ≫= turn_messages) with (@nil item).
    rewrite app_nil_r, insert_id by done.
    by rewrite with_heap_id.
Qed.

End Loop.

(** ** The message list *)

(** With fuel for one step per element and one more to see the end,
    lines 23-27 return a reference that was unused before, holding the
    system message, the messages of every element and the new message;
    nothing else is written. *)
Lemma chat_messages_run fuel message history st hs :
  heap st !! history = Some hs →
  length hs < fuel →
  chat_messages fuel message history st
  = (Return (fresh (dom (heap st))),
     with_heap st
       (<[fresh (dom (heap st)) :=
            Dict {| role := "system"; content := SYSTEM_PROMPT st |}
            :: (hs ≫= turn_messages)
            ++ [Dict {| role := "user"; content := message |}]]> (heap st))).
Proof.
  intros Hh Hfuel. set (m := fresh (dom (heap st))).
  assert (heap st !! m = None) as Hm by apply fresh_unused.
  assert (m ≠ history) as Hne by congruence.
  unfold chat_messages, bind at 1, get_SYSTEM_PROMPT.
  unfold bind at 1, new_list. fold m.
  unfold bind at 1.
  rewrite (for_in_appends history m Hne fuel hs 0
             [Dict {| role := "system"; content := SYSTEM_PROMPT st |}]).
  - unfold bind, append, ret. cbn [heap with_heap].
    rewrite lookup_insert_eq. unfold with_heap; cbn [DATA SYSTEM_PROMPT heap].
    by rewrite !insert_insert_eq, drop_0.
  - cbn [heap with_heap]. by rewrite lookup_insert_ne.
  - cbn [heap with_heap]. apply lookup_insert_eq.
  - lia.
Qed.

Lemma built_messages_run fuel message history st hs :
  heap st !! history = Some hs →
  length hs < fuel →
  built_messages fuel message history st
  = Some (Dict {| role := "system"; content := SYSTEM_PROMPT st |}
          :: (hs ≫= turn_messages)
          ++ [Dict {| role := "user"; content := message |}]).
Proof.
  intros Hh Hfuel. unfold built_messages.
  rewrite (chat_messages_run _ _ _ _ _ Hh Hfuel).
  cbn [heap with_heap]. apply lookup_insert_eq.
Qed.

Lemma turn_messages_turns (ts : list (string * string)) :
  (Turn <$> ts) ≫= turn_messages
  = Dict <$> (ts ≫= λ '(user_msg, assistant_msg),
                [{| role := "user"; content := user_msg |};
                 {| role := "assistant"; content := assistant_msg |}]).
Proof.
  induction ts as [|[u a] ts IH]; [done|].
  cbn. by rewrite IH.
Qed.

(** For a history of turns, the list built is the transcript. *)
Lemma built_transcript fuel message history st (ts : list (string * string)) :
  heap st !! history = Some (Turn <$> ts) →
  length ts < fuel →
  built_messages fuel message history st
  = Some (Dict <$> transcript (SYSTEM_PROMPT st) ts message).
Proof.
  intros Hh Hfuel.
  rewrite (built_messages_run _ _ _ _ _ Hh) by (by rewrite length_fmap).
  rewrite turn_messages_turns. unfold transcript.
  by rewrite fmap_cons, fmap_app.
Qed.

(** ** Shape of the transcript *)

Lemma transcript_length system_prompt ts message :
  length (transcript system_prompt ts message) = 2 * length ts + 2.
Proof.
  unfold transcript. cbn [length]. rewrite length_app. cbn [length].
  induction ts as [|[u a] ts IH]; cbn in *; lia.
Qed.

Lemma transcript_roles system_prompt ts message :
  role <$> transcript system_prompt ts message
  = "system" :: mjoin (replicate (length ts) ["user"; "assistant"]) ++ ["user"].
Proof.
  unfold transcript. rewrite fmap_cons, fmap_app. cbn [role fmap list_fmap].
  do 2 f_equal.
  induction ts as [|[u a] ts IH]; [done|].
  cbn. do 2 f_equal. exact IH.
Qed.

Lemma transcript_lookup system_prompt ts message i user_msg assistant_msg :
  ts !! i = Some (user_msg, assistant_msg) →
  transcript system_prompt ts message !! (2 * i + 1)
    = Some {| role := "user"; content := user_msg |}
  ∧ transcript system_prompt ts message !! (2 * i + 2)
    = Some {| role := "assistant"; content := assistant_msg |}.
Proof.
  unfold transcript. replace (2 * i + 1) with (S (2 * i)) by lia.
  replace (2 * i + 2) with (S (S (2 * i))) by lia. cbn [lookup list_lookup].
  revert i. induction ts as [|[u a] ts IH]; intros i Hi; [done|].
  destruct i as [|i].
  - by simplify_eq/=.
  - replace (2 * S i) with (S (S (2 * i))) by lia.
    cbn in Hi. specialize (IH _ Hi). cbn. exact IH.
Qed.

Lemma turn_pairs_inj (ts1 ts2 : list (string * string)) :
  (ts1 ≫= λ '(user_msg, assistant_msg),
     [{| role := "user"; content := user_msg |};
      {| role := "assistant"; content := assistant_msg |}])
  = (ts2 ≫= λ '(user_msg, assistant_msg),
       [{| role := "user"; content := user_msg |};
        {| role := "assistant"; content := assistant_msg |}]) →
  ts1 = ts2.
Proof.
  revert ts2. induction ts1 as [|[u1 a1] ts1 IH]; intros [|[u2 a2] ts2] H;
    [done | done | done |].
  cbn in H. injection H as -> -> H. f_equal. by apply IH.
Qed.

Lemma transcript_inj p1 p2 ts1 ts2 m1 m2 :
  transcript p1 ts1 m1 = transcript p2 ts2 m2 → p1 = p2 ∧ ts1 = ts2 ∧ m1 = m2.
Proof.
  unfold transcript. intros H. injection H as -> H.
  apply app_inj_tail in H as [H1 H2].
  split; [done|]. split; [by apply turn_pairs_inj | congruence].
Qed.

Lemma Dict_fmap_inj (ms1 ms2 : list Message) : Dict <$> ms1 = Dict <$> ms2 → ms1 = ms2.
Proof.
  revert ms2. induction ms1 as [|m1 ms1 IH]; intros [|m2 ms2] H; try done.
  cbn in H. injection H as -> H. f_equal. by apply IH.
Qed.

(** ** Strings *)

Lemma SYSTEM_PROMPT_of_split D :
  SYSTEM_PROMPT_of D = prompt_before +:+ D +:+ prompt_after.
Proof. reflexivity. Qed.

Lemma append_cons c (s1 s2 : string) : String c s1 +:+ s2 = String c (s1 +:+ s2).
Proof. reflexivity. Qed.

Lemma append_length (s1 s2 : string) :
  String.length (s1 +:+ s2) = String.length s1 + String.length s2.
Proof.
  induction s1 as [|c s1 IH]; [done|].
  rewrite append_cons. cbn [String.length]. by rewrite IH.
Qed.

Lemma append_inj_r (s1 s2 s : string) : s1 +:+ s = s2 +:+ s → s1 = s2.
Proof.
  revert s2. induction s1 as [|c s1 IH]; intros [|c' s2] H.
  - done.
  - apply (f_equal String.length) in H.
    rewrite append_cons in H. cbn [String.length] in H.
    rewrite !append_length in H. cbn in H. lia.
  - apply (f_equal String.length) in H.
    rewrite append_cons in H. cbn [String.length] in H.
    rewrite !append_length in H. cbn in H. lia.
  - rewrite !append_cons in H. injection H as -> H. f_equal. by apply IH.
Qed.

Lemma append_assoc (s1 s2 s3 : string) : (s1 +:+ s2) +:+ s3 = s1 +:+ s2 +:+ s3.
Proof.
  induction s1 as [|c s1 IH]; [done|].
  rewrite !append_cons. by rewrite IH.
Qed.

Lemma substring_skip (s1 s : string) m :
  String.substring (String.length s1) m (s1 +:+ s) = String.substring 0 m s.
Proof.
  induction s1 as [|c s1 IH]; [done|].
  rewrite append_cons. cbn [String.length String.substring]. exact IH.
Qed.

Lemma substring_take (s1 s : string) :
  String.substring 0 (String.length s1) (s1 +:+ s) = s1.
Proof.
  induction s1 as [|c s1 IH]; [by destruct s|].
  rewrite append_cons. cbn [String.length String.substring]. by rewrite IH.
Qed.

(** Different datasets give different prompts. *)
Lemma SYSTEM_PROMPT_of_inj D1 D2 :
  SYSTEM_PROMPT_of D1 = SYSTEM_PROMPT_of D2 → D1 = D2.
Proof.
  rewrite !SYSTEM_PROMPT_of_split. intros H%(inj (String.app prompt_before)).
  by apply append_inj_r in H.
Qed.

(** ** What a computation leaves alone *)

Lemma extends_refl st : extends st st.
Proof. by repeat split. Qed.

Lemma extends_lookup st0 st l xs :
  extends st0 st → heap st0 !! l = Some xs → heap st !! l = Some xs.
Proof. intros (_ & _ & Hsub) Hl. by eapply lookup_weaken. Qed.

Lemma extends_bind st0 {A B} (c : M A) (k : A → M B) st :
  extends st0 (c st).2 → (∀ a, keeps st0 (k a)) → extends st0 (bind c k st).2.
Proof.
  intros Hc Hk. unfold bind. destruct (c st) as [[a|e| |] st']; cbn in *; try done.
  by apply Hk.
Qed.

Lemma keeps_ret st0 {A} (a : A) : keeps st0 (ret a).
Proof. by intros st. Qed.

Lemma keeps_raise st0 {A} e : keeps st0 (@raise A e).
Proof. by intros st. Qed.

Lemma keeps_bind st0 {A B} (c : M A) (k : A → M B) :
  keeps st0 c → (∀ a, keeps st0 (k a)) → keeps st0 (bind c k).
Proof. intros Hc Hk st Hst. apply extends_bind; auto. Qed.

Lemma keeps_read_list st0 l : keeps st0 (read_list l).
Proof. intros st Hst. unfold read_list. by destruct (heap st !! l). Qed.

Lemma keeps_index0 st0 {A} (xs : list A) : keeps st0 (index0 xs).
Proof. destruct xs; [apply keeps_raise | apply keeps_ret]. Qed.

(** Appending to a list that [st0] does not have. *)
Lemma keeps_append st0 l x : heap st0 !! l = None → keeps st0 (append l x).
Proof.
  intros Hl st (Hd & Hp & Hsub). unfold append.
  destruct (heap st !! l) as [xs|]; [|done].
  repeat split; [done..|]. cbn. by apply insert_subseteq_r.
Qed.

Lemma keeps_for_in st0 fuel l body :
  (∀ x, keeps st0 (body x)) → ∀ i, keeps st0 (for_in fuel l i body).
Proof.
  intros Hbody. induction fuel as [|fuel IH]; intros i; [by intros st|].
  cbn [for_in]. apply keeps_bind; [apply keeps_read_list|].
  intros xs. destruct (xs !! i); [|apply keeps_ret].
  apply keeps_bind; [apply Hbody | intros _; apply IH].
Qed.

Create HintDb frame.
#[local] Hint Resolve keeps_ret keeps_raise keeps_read_list keeps_index0
  keeps_append keeps_for_in : frame.
#[local] Hint Extern 2 (keeps _ (bind _ _)) => apply keeps_bind; [|intros ?] : frame.
#[local] Hint Extern 2 (keeps _ (let '(_, _) := unpack2 ?x in _)) =>
  destruct (unpack2 x) : frame.

(** Lines 23-27 write to the new list only, whatever the fuel and whatever
    [history] refers to. *)
Lemma chat_messages_extends fuel message history st :
  extends st (chat_messages fuel message history st).2.
Proof.
  unfold chat_messages, bind at 1, get_SYSTEM_PROMPT. unfold bind at 1, new_list.
  pose proof (fresh_unused (heap st)) as Hm.
  apply keeps_bind.
  - apply keeps_for_in. intros x. auto with frame.
  - auto with frame.
  - repeat split; [done..|]. cbn. by apply insert_subseteq.
Qed.

Lemma chat_extends create fuel message history st :
  extends st (chat create fuel message history st).2.
Proof.
  unfold chat. apply extends_bind; [apply chat_messages_extends|].
  intros messages. apply keeps_bind; [|auto with frame].
  unfold call_create. apply keeps_bind; [auto with frame|].
  intros sent. destruct (create _ sent); auto with frame.
Qed.

(** ** The completion *)

(** [chat] hands the provider the model name and the list it built, and
    ends as the first choice of the answer decides. *)
Lemma chat_eq create fuel message history st hs :
  heap st !! history = Some hs →
  length hs < fuel →
  ∃ sent,
    built_messages fuel message history st = Some sent
    ∧ chat create fuel message history st
      = (first_choice (create "gpt-4o" sent),
         (chat_messages fuel message history st).2).
Proof.
  intros Hh Hfuel. eexists. split; [by apply built_messages_run|].
  unfold chat, bind at 1. rewrite (chat_messages_run _ _ _ _ _ Hh Hfuel).
  unfold call_create, read_list, first_choice, bind.
  cbn [heap with_heap snd]. rewrite lookup_insert_eq.
  destruct (create _ _) as [e|response]; [done|].
  unfold ret. by destruct (openai.choices response).
Qed.

(** ** The life of the process *)

Lemma step_globals create st st' :
  step create st st' → DATA st' = DATA st ∧ SYSTEM_PROMPT st' = SYSTEM_PROMPT st.
Proof.
  intros [fuel message history st0|st0 h]; [|done].
  by destruct (chat_extends create fuel message history st0) as (? & ? & _).
Qed.

Lemma steps_globals create st st' :
  rtc (step create) st st' → DATA st' = DATA st ∧ SYSTEM_PROMPT st' = SYSTEM_PROMPT st.
Proof.
  induction 1 as [|st st1 st2 Hstep _ [IHd IHp]]; [done|].
  apply step_globals in Hstep as [Hd Hp]. split; congruence.
Qed.

(** * Properties of [chat] *)

(** ** The message list of a history of turns *)

Section TurnsHistory.

Context (st : state) (fuel : nat) (message : string) (history : loc).
Context (ts : list (string * string)).
Hypothesis history_holds_turns : heap st !! history = Some (Turn <$> ts).
Hypothesis enough_fuel : length ts < fuel.

(** C1: for a history of N turns and any new message, the list that [chat]
    builds has exactly 2N + 2 messages, with roles system, then N times
    user, assistant, then user; for the empty history it is the system
    message followed by the new user message. *)
Theorem chat_messages_length_and_roles :
  ∃ msgs : list Message,
    built_messages fuel message history st = Some (Dict <$> msgs)
    ∧ length msgs = 2 * length ts + 2
    ∧ role <$> msgs
      = "system" :: mjoin (replicate (length ts) ["user"; "assistant"]) ++ ["user"]
    ∧ last (role <$> msgs) = Some "user"
    ∧ (ts = [] →
       msgs = [{| role := "system"; content := SYSTEM_PROMPT st |};
               {| role := "user"; content := message |}]).
Proof.
  exists (transcript (SYSTEM_PROMPT st) ts message).
  split; [by apply built_transcript|].
  split; [apply transcript_length|].
  split; [apply transcript_roles|].
  split.
  - rewrite transcript_roles.
    change ("system" :: ?l ++ ["user"]) with (("system" :: l) ++ ["user"]).
    apply last_snoc.
  - by intros ->.
Qed.

(** C2: the i-th turn of the history contributes a user message with the
    turn's user text at index 2i + 1, immediately followed by an assistant
    message with its assistant text at index 2i + 2; with the length of
    2N + 2, no turn is dropped, merged or moved, and no text is changed. *)
Theorem chat_messages_preserve_turns :
  ∃ msgs : list Message,
    built_messages fuel message history st = Some (Dict <$> msgs)
    ∧ length msgs = 2 * length ts + 2
    ∧ ∀ i user_msg assistant_msg,
        ts !! i = Some (user_msg, assistant_msg) →
        msgs !! (2 * i + 1) = Some {| role := "user"; content := user_msg |}
        ∧ msgs !! (2 * i + 2)
          = Some {| role := "assistant"; content := assistant_msg |}.
Proof.
  exists (transcript (SYSTEM_PROMPT st) ts message).
  split; [by apply built_transcript|].
  split; [apply transcript_length|].
  intros i u a. apply transcript_lookup.
Qed.

End TurnsHistory.

Lemma chat_messages_length_and_roles_witness :
  ∃ msgs : list Message,
    built_messages 3 "hi" 1%positive st_demo = Some (Dict <$> msgs)
    ∧ length msgs = 6
    ∧ role <$> msgs = ["system"; "user"; "assistant"; "user"; "assistant"; "user"]
    ∧ last (role <$> msgs) = Some "user"
    ∧ ([("u1", "a1"); ("", "a2")] = [] →
       msgs = [{| role := "system"; content := SYSTEM_PROMPT st_demo |};
               {| role := "user"; content := "hi" |}]).
Proof.
  apply (chat_messages_length_and_roles st_demo 3 "hi" 1%positive
           [("u1", "a1"); ("", "a2")]); [reflexivity | simpl; lia].
Defined.

Lemma chat_messages_preserve_turns_witness :
  ∃ msgs : list Message,
    built_messages 3 "hi" 1%positive st_demo = Some (Dict <$> msgs)
    ∧ length msgs = 6
    ∧ ∀ i user_msg assistant_msg,
        [("u1", "a1"); ("", "a2")] !! i = Some (user_msg, assistant_msg) →
        msgs !! (2 * i + 1) = Some {| role := "user"; content := user_msg |}
        ∧ msgs !! (2 * i + 2)
          = Some {| role := "assistant"; content := assistant_msg |}.
Proof.
  apply (chat_messages_preserve_turns st_demo 3 "hi" 1%positive
           [("u1", "a1"); ("", "a2")]); [reflexivity | simpl; lia].
Defined.

(** C10: a turn whose user text or assistant text is the empty string
    still contributes its two messages, at the indices of its position,
    so the length 2N + 2 and the role pattern hold whatever texts are
    empty. *)
Theorem chat_messages_keep_empty_texts st fuel message history
    (ts1 ts2 : list (string * string)) user_msg assistant_msg :
  user_msg = "" ∨ assistant_msg = "" →
  heap st !! history = Some (Turn <$> (ts1 ++ (user_msg, assistant_msg) :: ts2)) →
  length (ts1 ++ (user_msg, assistant_msg) :: ts2) < fuel →
  ∃ msgs : list Message,
    built_messages fuel message history st = Some (Dict <$> msgs)
    ∧ length msgs = 2 * length (ts1 ++ (user_msg, assistant_msg) :: ts2) + 2
    ∧ role <$> msgs
      = "system"
        :: mjoin (replicate (length (ts1 ++ (user_msg, assistant_msg) :: ts2))
                    ["user"; "assistant"])
        ++ ["user"]
    ∧ msgs !! (2 * length ts1 + 1)
      = Some {| role := "user"; content := user_msg |}
    ∧ msgs !! (2 * length ts1 + 2)
      = Some {| role := "assistant"; content := assistant_msg |}.
Proof.
  intros _ Hh Hfuel.
  exists (transcript (SYSTEM_PROMPT st)
            (ts1 ++ (user_msg, assistant_msg) :: ts2) message).
  split; [by apply built_transcript|].
  split; [apply transcript_length|].
  split; [apply transcript_roles|].
  apply transcript_lookup. by rewrite list_lookup_middle.
Qed.

Lemma chat_messages_keep_empty_texts_witness :
  ∃ msgs : list Message,
    built_messages 3 "" 1%positive st_demo = Some (Dict <$> msgs)
    ∧ length msgs = 6
    ∧ role <$> msgs = ["system"; "user"; "assistant"; "user"; "assistant"; "user"]
    ∧ msgs !! 3 = Some {| role := "user"; content := "" |}
    ∧ msgs !! 4 = Some {| role := "assistant"; content := "a2" |}.
Proof.
  apply (chat_messages_keep_empty_texts st_demo 3 "" 1%positive
           [("u1", "a1")] [] "" "a2"); [by left | reflexivity | simpl; lia].
Defined.

(** ** The system prompt *)

(** C3: for every dataset D the system prompt contains D as a contiguous
    substring; it is a function of D alone, so the same D gives the same
    prompt, also in two startups that read the same file text; for the
    empty dataset it is the fixed template text, 209 characters long. *)
Theorem system_prompt_contains_dataset (D : string) :
  (∃ before after, SYSTEM_PROMPT_of D = before +:+ D +:+ after)
  ∧ (∀ D', D' = D → SYSTEM_PROMPT_of D' = SYSTEM_PROMPT_of D)
  ∧ (∀ fs1 fs2,
       fs1 "meu_logistics_data.csv" = Some D →
       fs2 "meu_logistics_data.csv" = Some D →
       ∃ st1 st2, startup fs1 = Return st1 ∧ startup fs2 = Return st2
                  ∧ SYSTEM_PROMPT st1 = SYSTEM_PROMPT_of D
                  ∧ SYSTEM_PROMPT st2 = SYSTEM_PROMPT st1)
  ∧ SYSTEM_PROMPT_of "" = prompt_before +:+ prompt_after
  ∧ String.length (SYSTEM_PROMPT_of "") = 209.
Proof.
  split; [by exists prompt_before, prompt_after|].
  split; [by intros ? ->|].
  split; [|split; [reflexivity | vm_compute; reflexivity]].
  intros fs1 fs2 H1 H2. unfold startup. rewrite H1, H2. by eexists _, _.
Qed.

Lemma system_prompt_contains_dataset_witness :
  ∃ st, startup fs_demo = Return st
        ∧ SYSTEM_PROMPT st = SYSTEM_PROMPT_of "Fuel: 500 gal/day".
Proof.
  destruct (system_prompt_contains_dataset "Fuel: 500 gal/day")
    as (_ & _ & Hstart & _).
  destruct (Hstart fs_demo fs_demo eq_refl eq_refl) as (st1 & _ & H1 & _ & Hp & _).
  by exists st1.
Defined.

(** ** The completion *)

(** C4: whatever list was built, when the provider's answer to it has a
    first choice with message content S, [chat] returns exactly S. *)
Theorem chat_returns_first_choice create st fuel message history hs
    sent response choice rest (S : string) :
  heap st !! history = Some hs →
  length hs < fuel →
  built_messages fuel message history st = Some sent →
  create "gpt-4o" sent = inr response →
  openai.choices response = choice :: rest →
  openai.content (openai.message choice) = Some S →
  (chat create fuel message history st).1 = Return (Some S).
Proof.
  intros Hh Hfuel Hsent Hanswer Hchoices HS.
  destruct (chat_eq create _ message _ _ _ Hh Hfuel) as (sent' & Hsent' & ->).
  assert (sent' = sent) as -> by congruence.
  cbn [fst]. unfold first_choice. by rewrite Hanswer, Hchoices, HS.
Qed.

Lemma chat_returns_first_choice_witness :
  (chat (stub (Some "500 gallons per day")) 1 "What is the fuel rate?"
     1%positive st_fresh).1
  = Return (Some "500 gallons per day").
Proof.
  apply (chat_returns_first_choice (stub (Some "500 gallons per day")) st_fresh 1
           "What is the fuel rate?" 1%positive []
           [Dict {| role := "system"; content := SYSTEM_PROMPT_of "Fuel: 500 gal/day" |};
            Dict {| role := "user"; content := "What is the fuel rate?" |}]
           {| openai.choices :=
                [{| openai.message :=
                      {| openai.content := Some "500 gallons per day" |} |}] |}
           {| openai.message := {| openai.content := Some "500 gallons per day" |} |}
           []);
    [reflexivity | simpl; lia | reflexivity..].
Defined.

(** C5: when the provider's answer has no choices, [chat] ends by raising
    IndexError: it neither returns a value nor raises anything else. The
    globals and every list that existed before the call, the history among
    them, are as they were. *)
Theorem chat_empty_choices_raises create st fuel message history hs
    sent response :
  heap st !! history = Some hs →
  length hs < fuel →
  built_messages fuel message history st = Some sent →
  create "gpt-4o" sent = inr response →
  openai.choices response = [] →
  (chat create fuel message history st).1 = Raise IndexError
  ∧ DATA (chat create fuel message history st).2 = DATA st
  ∧ SYSTEM_PROMPT (chat create fuel message history st).2 = SYSTEM_PROMPT st
  ∧ (∀ l xs, heap st !! l = Some xs →
             heap (chat create fuel message history st).2 !! l = Some xs).
Proof.
  intros Hh Hfuel Hsent Hanswer Hchoices.
  pose proof (chat_extends create fuel message history st) as Hext.
  split.
  - destruct (chat_eq create _ message _ _ _ Hh Hfuel) as (sent' & Hsent' & ->).
    assert (sent' = sent) as -> by congruence.
    cbn [fst]. unfold first_choice. by rewrite Hanswer, Hchoices.
  - destruct Hext as (Hd & Hp & Hsub). repeat split; [done..|].
    intros l xs Hl. by eapply lookup_weaken.
Qed.

Lemma chat_empty_choices_raises_witness :
  (chat stub_no_choice 3 "hi" 1%positive st_demo).1 = Raise IndexError
  ∧ DATA (chat stub_no_choice 3 "hi" 1%positive st_demo).2 = DATA st_demo
  ∧ SYSTEM_PROMPT (chat stub_no_choice 3 "hi" 1%positive st_demo).2
    = SYSTEM_PROMPT st_demo
  ∧ (∀ l xs, heap st_demo !! l = Some xs →
             heap (chat stub_no_choice 3 "hi" 1%positive st_demo).2 !! l = Some xs).
Proof.
  apply (chat_empty_choices_raises stub_no_choice st_demo 3 "hi" 1%positive
           [Turn ("u1", "a1"); Turn ("", "a2")]
           [Dict {| role := "system"; content := SYSTEM_PROMPT_of "Fuel: 500 gal/day" |};
            Dict {| role := "user"; content := "u1" |};
            Dict {| role := "assistant"; content := "a1" |};
            Dict {| role := "user"; content := "" |};
            Dict {| role := "assistant"; content := "a2" |};
            Dict {| role := "user"; content := "hi" |}]
           {| openai.choices := [] |});
    [reflexivity | simpl; lia | reflexivity..].
Defined.

(** ** The life of the process *)

(** C6: the system prompt is computed at startup, from the data read
    then; no later step of the process changes it, a call of [chat]
    included; and in every call the first message of the list built is the
    system message carrying that same prompt. *)
Theorem system_prompt_fixed_at_startup create fs st0 st fuel message history hs :
  startup fs = Return st0 →
  rtc (step create) st0 st →
  heap st !! history = Some hs →
  length hs < fuel →
  SYSTEM_PROMPT st0 = SYSTEM_PROMPT_of (DATA st0)
  ∧ SYSTEM_PROMPT st = SYSTEM_PROMPT st0
  ∧ SYSTEM_PROMPT (chat create fuel message history st).2 = SYSTEM_PROMPT st0
  ∧ ∃ rest,
      built_messages fuel message history st
      = Some (Dict {| role := "system"; content := SYSTEM_PROMPT st0 |} :: rest).
Proof.
  intros Hstart Hsteps Hh Hfuel.
  apply steps_globals in Hsteps as [_ Hp].
  split.
  - unfold startup in Hstart. destruct (fs _); by simplify_eq.
  - split; [done|]. split.
    + destruct (chat_extends create fuel message history st) as (_ & -> & _). done.
    + eexists. rewrite (built_messages_run _ _ _ _ _ Hh Hfuel), Hp. done.
Qed.

Lemma system_prompt_fixed_at_startup_witness :
  SYSTEM_PROMPT st_start = SYSTEM_PROMPT_of (DATA st_start)
  ∧ SYSTEM_PROMPT
      (chat (stub (Some "ok")) 1 "first" 1%positive
         (with_heap st_start {[ 1%positive := [] ]})).2
    = SYSTEM_PROMPT st_start
  ∧ SYSTEM_PROMPT
      (chat (stub (Some "ok")) 2 "second" 1%positive
         (chat (stub (Some "ok")) 1 "first" 1%positive
            (with_heap st_start {[ 1%positive := [] ]})).2).2
    = SYSTEM_PROMPT st_start
  ∧ ∃ rest,
      built_messages 2 "second" 1%positive
        (chat (stub (Some "ok")) 1 "first" 1%positive
           (with_heap st_start {[ 1%positive := [] ]})).2
      = Some (Dict {| role := "system"; content := SYSTEM_PROMPT st_start |} :: rest).
Proof.
  apply (system_prompt_fixed_at_startup (stub (Some "ok"))
           fs_demo st_start _ 2 "second" 1%positive []).
  - reflexivity.
  - eapply rtc_l; [apply (step_surface _ _ {[ 1%positive := [] ]})|].
    apply rtc_once, step_chat.
  - reflexivity.
  - simpl; lia.
Defined.

(** ** Totality, frame and determinism of the message list *)

(** C7: lines 23-27 reject nothing. Whatever the system prompt, the
    history of turns (the empty one too) and the new message (the empty
    string too), they return the message list, and enough fuel for that
    exists: one step per turn and one to see the end. *)
Theorem chat_messages_total st message history (ts : list (string * string)) :
  heap st !! history = Some (Turn <$> ts) →
  ∃ messages st',
    (∀ fuel, length ts < fuel →
       chat_messages fuel message history st = (Return messages, st'))
    ∧ heap st' !! messages = Some (Dict <$> transcript (SYSTEM_PROMPT st) ts message).
Proof.
  intros Hh. eexists _, _. split.
  - intros fuel Hfuel. apply (chat_messages_run _ _ _ _ _ Hh).
    by rewrite length_fmap.
  - cbn [heap with_heap]. rewrite lookup_insert_eq, turn_messages_turns.
    unfold transcript. by rewrite fmap_cons, fmap_app.
Qed.

Lemma chat_messages_total_witness :
  ∃ messages st',
    (∀ fuel, 0 < fuel →
       chat_messages fuel "" 7%positive st_blank = (Return messages, st'))
    ∧ heap st' !! messages = Some (Dict <$> transcript "" [] "").
Proof.
  apply (chat_messages_total st_blank "" 7%positive []). reflexivity.
Defined.

(** C8: a call of [chat] leaves the history list as it found it, turn by
    turn, and every other list that existed before the call as well,
    however the call ends; the list it builds lives at a reference that
    was unused before the call, so it is not the history. *)
Theorem chat_leaves_history create st fuel message history hs :
  heap st !! history = Some hs →
  heap (chat create fuel message history st).2 !! history = Some hs
  ∧ (∀ l xs, heap st !! l = Some xs →
             heap (chat create fuel message history st).2 !! l = Some xs)
  ∧ (length hs < fuel →
     ∃ messages st',
       chat_messages fuel message history st = (Return messages, st')
       ∧ heap st !! messages = None
       ∧ messages ≠ history
       ∧ heap st' !! history = Some hs).
Proof.
  intros Hh.
  pose proof (chat_extends create fuel message history st) as Hext.
  split; [by eapply extends_lookup|].
  split; [intros l xs Hl; by eapply extends_lookup|].
  intros Hfuel. eexists _, _. split; [by apply chat_messages_run|].
  pose proof (fresh_unused (heap st)) as Hm.
  split; [done|]. split; [congruence|].
  cbn [heap with_heap]. rewrite lookup_insert_ne by congruence. done.
Qed.

Lemma chat_leaves_history_witness :
  heap (chat (stub (Some "ok")) 3 "hi" 1%positive st_demo).2 !! 1%positive
  = Some [Turn ("u1", "a1"); Turn ("", "a2")]
  ∧ (∀ l xs, heap st_demo !! l = Some xs →
             heap (chat (stub (Some "ok")) 3 "hi" 1%positive st_demo).2 !! l = Some xs)
  ∧ (2 < 3 →
     ∃ messages st',
       chat_messages 3 "hi" 1%positive st_demo = (Return messages, st')
       ∧ heap st_demo !! messages = None
       ∧ messages ≠ 1%positive
       ∧ heap st' !! 1%positive = Some [Turn ("u1", "a1"); Turn ("", "a2")]).
Proof.
  apply (chat_leaves_history (stub (Some "ok")) st_demo 3 "hi" 1%positive
           [Turn ("u1", "a1"); Turn ("", "a2")]).
  reflexivity.
Defined.

(** C9: two calls with the same system prompt, the same turns in the
    history and the same new message build the same message list, whatever
    else differs between them: the other globals, the other lists, the
    reference the history lives at, the fuel beyond what is needed. *)
Theorem chat_messages_deterministic st1 st2 fuel1 fuel2 message
    history1 history2 hs :
  SYSTEM_PROMPT st1 = SYSTEM_PROMPT st2 →
  heap st1 !! history1 = Some hs →
  heap st2 !! history2 = Some hs →
  length hs < fuel1 →
  length hs < fuel2 →
  ∃ sent,
    built_messages fuel1 message history1 st1 = Some sent
    ∧ built_messages fuel2 message history2 st2 = Some sent.
Proof.
  intros Hp Hh1 Hh2 Hfuel1 Hfuel2. eexists. split; [by apply built_messages_run|].
  rewrite (built_messages_run _ _ _ _ _ Hh2 Hfuel2). by rewrite Hp.
Qed.

Lemma chat_messages_deterministic_witness :
  ∃ sent,
    built_messages 3 "hi" 1%positive st_demo = Some sent
    ∧ built_messages 9 "hi" 4%positive st_other = Some sent.
Proof.
  apply (chat_messages_deterministic st_demo st_other 3 9 "hi" 1%positive 4%positive
           [Turn ("u1", "a1"); Turn ("", "a2")]);
    [reflexivity | reflexivity | reflexivity | simpl; lia | simpl; lia].
Defined.

(** ** Further properties *)

(** X1: an exception of the provider call comes out of [chat] as it is;
    the globals and the lists that existed before the call are as they
    were. *)
Theorem chat_provider_error_propagates create st fuel message history hs sent e :
  heap st !! history = Some hs →
  length hs < fuel →
  built_messages fuel message history st = Some sent →
  create "gpt-4o" sent = inl e →
  (chat create fuel message history st).1 = Raise e
  ∧ extends st (chat create fuel message history st).2.
Proof.
  intros Hh Hfuel Hsent Hanswer.
  split; [|apply chat_extends].
  destruct (chat_eq create _ message _ _ _ Hh Hfuel) as (sent' & Hsent' & ->).
  assert (sent' = sent) as -> by congruence.
  cbn [fst]. unfold first_choice. by rewrite Hanswer.
Qed.

Lemma chat_provider_error_propagates_witness :
  (chat (stub_failing "rate limit") 1 "hi" 1%positive st_fresh).1
  = Raise (APIError "rate limit")
  ∧ extends st_fresh (chat (stub_failing "rate limit") 1 "hi" 1%positive st_fresh).2.
Proof.
  apply (chat_provider_error_propagates (stub_failing "rate limit") st_fresh 1 "hi"
           1%positive []
           [Dict {| role := "system"; content := SYSTEM_PROMPT_of "Fuel: 500 gal/day" |};
            Dict {| role := "user"; content := "hi" |}]);
    [reflexivity | simpl; lia | reflexivity..].
Defined.

(** Startup succeeds exactly when the data file can be read, and then
    the globals are the file's text and the prompt made of it, and no list
    exists yet. *)
Lemma startup_reads_data_file fs :
  match fs "meu_logistics_data.csv" with
  | Some text =>
      startup fs
      = Return {| DATA := text; SYSTEM_PROMPT := SYSTEM_PROMPT_of text; heap := ∅ |}
  | None => startup fs = Raise OSError
  end.
Proof. unfold startup. by destruct (fs _). Qed.



(** X2: the dataset goes into the prompt whole and can be read back out
    of it: it stands after the fixed opening text, the prompt is 209
    characters longer than it, and two datasets with the same prompt are the
    same dataset. *)
Theorem system_prompt_keeps_dataset (D : string) :
  dataset_of (SYSTEM_PROMPT_of D) = D
  ∧ String.length (SYSTEM_PROMPT_of D) = 209 + String.length D
  ∧ ∀ D', SYSTEM_PROMPT_of D' = SYSTEM_PROMPT_of D → D' = D.
Proof.
  assert (String.length (SYSTEM_PROMPT_of D)
          = String.length prompt_before + (String.length D + String.length prompt_after))
    as Hlen by (by rewrite SYSTEM_PROMPT_of_split, !append_length).
  split; [|split].
  - unfold dataset_of. rewrite Hlen.
    replace (String.length prompt_before
             + (String.length D + String.length prompt_after)
             - String.length prompt_before - String.length prompt_after)
      with (String.length D) by lia.
    rewrite SYSTEM_PROMPT_of_split, substring_skip. apply substring_take.
  - rewrite Hlen.
    change (String.length prompt_before) with 191.
    change (String.length prompt_after) with 18. lia.
  - intros D'. apply SYSTEM_PROMPT_of_inj.
Qed.

(** X4: the dataset is not escaped. When it contains the closing text of
    the data block, the prompt starts with the complete prompt of what
    came before that text, with the rest of the dataset after it; and the
    first closing text found from the start of the data stands no later
    than the end of that first part, before the rest of the dataset. *)
Theorem system_prompt_does_not_escape (D1 D2 : string) :
  SYSTEM_PROMPT_of (D1 +:+ prompt_after +:+ D2)
  = SYSTEM_PROMPT_of D1 +:+ D2 +:+ prompt_after
  ∧ ∃ k,
      String.index (String.length prompt_before) prompt_after
        (SYSTEM_PROMPT_of (D1 +:+ prompt_after +:+ D2)) = Some k
      ∧ (k ≤ String.length prompt_before + String.length D1)%nat.
Proof.
  split; [rewrite !SYSTEM_PROMPT_of_split; by rewrite !append_assoc|].
  assert (String.substring (String.length prompt_before + String.length D1)
            (String.length prompt_after)
            (SYSTEM_PROMPT_of (D1 +:+ prompt_after +:+ D2))
          = prompt_after) as Hocc.
  { rewrite SYSTEM_PROMPT_of_split, !append_assoc.
    rewrite <- (append_assoc prompt_before D1), <- append_length.
    rewrite substring_skip. apply substring_take. }
  destruct (String.index _ _ _) as [k|] eqn:Hindex.
  - exists k. split; [done|].
    destruct (decide (k ≤ String.length prompt_before + String.length D1)%nat)
      as [|Hlate]; [done|].
    exfalso. revert Hocc.
    apply (String.index_correct2 _ _ _ _ Hindex); lia.
  - exfalso. revert Hocc.
    apply (String.index_correct3 _ _ _ _ Hindex); [done | lia].
Qed.

(** X5: conversations grow by appending. When the history of a later
    call is the history of an earlier one followed by the turn made of the
    earlier message and a reply, the later list is the earlier list,
    followed by the reply as an assistant message and the new user
    message. *)
Theorem chat_messages_extend_with_turn st st' fuel fuel' message message' reply
    history history' hs sent :
  SYSTEM_PROMPT st' = SYSTEM_PROMPT st →
  heap st !! history = Some hs →
  heap st' !! history' = Some (hs ++ [Turn (message, reply)]) →
  length hs < fuel →
  S (length hs) < fuel' →
  built_messages fuel message history st = Some sent →
  built_messages fuel' message' history' st'
  = Some (sent ++ [Dict {| role := "assistant"; content := reply |};
                   Dict {| role := "user"; content := message' |}]).
Proof.
  intros Hp Hh Hh' Hfuel Hfuel' Hsent.
  rewrite (built_messages_run _ _ _ _ _ Hh Hfuel) in Hsent.
  injection Hsent as <-.
  rewrite (built_messages_run _ _ _ _ _ Hh')
    by (rewrite length_app; cbn; lia).
  rewrite Hp, bind_app. cbn. by rewrite <- !app_assoc.
Qed.

Lemma chat_messages_extend_with_turn_witness :
  built_messages 2 "second" 1%positive
    (with_heap st_start {[ 1%positive := [Turn ("first", "reply")] ]})
  = Some ([Dict {| role := "system"; content := SYSTEM_PROMPT st_start |};
           Dict {| role := "user"; content := "first" |}]
          ++ [Dict {| role := "assistant"; content := "reply" |};
              Dict {| role := "user"; content := "second" |}]).
Proof.
  apply (chat_messages_extend_with_turn st_fresh
           (with_heap st_start {[ 1%positive := [Turn ("first", "reply")] ]})
           1 2 "first" "second" "reply" 1%positive 1%positive []);
    [reflexivity | reflexivity | reflexivity | simpl; lia | simpl; lia | reflexivity].
Defined.

(** X6: nothing of a conversation is lost in the message list. Two calls
    on histories of turns that build the same list had the same system
    prompt, the same turns and the same new message. *)
Theorem chat_messages_injective st1 st2 fuel1 fuel2 message1 message2
    history1 history2 (ts1 ts2 : list (string * string)) :
  heap st1 !! history1 = Some (Turn <$> ts1) →
  heap st2 !! history2 = Some (Turn <$> ts2) →
  length ts1 < fuel1 →
  length ts2 < fuel2 →
  built_messages fuel1 message1 history1 st1
  = built_messages fuel2 message2 history2 st2 →
  SYSTEM_PROMPT st1 = SYSTEM_PROMPT st2 ∧ ts1 = ts2 ∧ message1 = message2.
Proof.
  intros Hh1 Hh2 Hfuel1 Hfuel2.
  rewrite (built_transcript _ _ _ _ _ Hh1 Hfuel1).
  rewrite (built_transcript _ _ _ _ _ Hh2 Hfuel2).
  intros H. apply (inj Some), Dict_fmap_inj in H. by apply transcript_inj.
Qed.

Lemma chat_messages_injective_witness :
  SYSTEM_PROMPT st_demo = SYSTEM_PROMPT st_other
  ∧ [("u1", "a1"); ("", "a2")] = [("u1", "a1"); ("", "a2")]
  ∧ "hi" = "hi".
Proof.
  apply (chat_messages_injective st_demo st_other 3 9 "hi" "hi" 1%positive 4%positive
           [("u1", "a1"); ("", "a2")] [("u1", "a1"); ("", "a2")]);
    [reflexivity | reflexivity | simpl; lia | simpl; lia | reflexivity].
Defined.

(** X7: [chat] reads the first choice and nothing else of the response,
    and does not look at what the content is: further choices do not
    matter, and a first choice without content makes [chat] return None,
    not raise. *)
Theorem chat_reads_first_choice_only create st fuel message history hs
    sent response choice rest :
  heap st !! history = Some hs →
  length hs < fuel →
  built_messages fuel message history st = Some sent →
  create "gpt-4o" sent = inr response →
  openai.choices response = choice :: rest →
  (chat create fuel message history st).1
  = Return (openai.content (openai.message choice))
  ∧ (openai.content (openai.message choice) = None →
     (chat create fuel message history st).1 = Return None).
Proof.
  intros Hh Hfuel Hsent Hanswer Hchoices.
  destruct (chat_eq create _ message _ _ _ Hh Hfuel) as (sent' & Hsent' & ->).
  assert (sent' = sent) as -> by congruence.
  cbn [fst]. unfold first_choice. rewrite Hanswer, Hchoices.
  split; [done | by intros ->].
Qed.

Lemma chat_reads_first_choice_only_witness :
  (chat (stub None) 1 "hi" 1%positive st_fresh).1 = Return None
  ∧ (@None string = None →
     (chat (stub None) 1 "hi" 1%positive st_fresh).1 = Return None).
Proof.
  apply (chat_reads_first_choice_only (stub None) st_fresh 1 "hi" 1%positive []
           [Dict {| role := "system"; content := SYSTEM_PROMPT_of "Fuel: 500 gal/day" |};
            Dict {| role := "user"; content := "hi" |}]
           {| openai.choices := [{| openai.message := {| openai.content := None |} |}] |}
           {| openai.message := {| openai.content := None |} |} []);
    [reflexivity | simpl; lia | reflexivity..].
Defined.



(** The end-to-end scenario of the specification, run. *)
Example end_to_end :
  startup fs_demo = Return st_start
  ∧ built_messages 1 "What is the fuel rate?" 1%positive st_fresh
    = Some [Dict {| role := "system";
                    content := prompt_before +:+ "Fuel: 500 gal/day" +:+ prompt_after |};
            Dict {| role := "user"; content := "What is the fuel rate?" |}]
  ∧ (chat (stub (Some "500 gallons per day")) 1 "What is the fuel rate?"
       1%positive st_fresh).1
    = Return (Some "500 gallons per day").
Proof. repeat split; vm_compute; reflexivity. Qed.

(** The loop needs its fuel: with none left for the step that finds the
    end of the history, the run is cut short. *)
Example fuel_counts_the_last_step :
  (chat_messages 2 "hi" 1%positive st_demo).1 = OutOfFuel
  ∧ (chat_messages 3 "hi" 1%positive st_demo).1 = Return 2%positive.
Proof. split; vm_compute; reflexivity. Qed.
